(** * Request dispatch pipeline of the HTTP server scaffold

    A shallow embedding of [src/Api.ts] and [src/Types.ts]: the route
    registry built by the constructor, the guard, logging and CORS stages,
    the promise wrapper, the centralized error handler and the start/stop
    life cycle, followed by the properties of these functions. *)

From Stdlib Require Import ZArith Lia.
From stdpp Require Import base option list strings pretty gmap.

Local Open Scope string_scope.
Local Open Scope Z_scope.
Local Open Scope list_scope.

(** ** JavaScript values used by the server *)

(** A thrown or rejected value ([err : any] in the error handler).  The
    handler only uses [err.toString()] and the optional [err.query]. *)
Record Failure := mkFailure {
  toString : string;
  query : option string;
}.

(** [new Error(msg)]: prints as ["Error: " + msg], has no [query] field. *)
Definition Error (msg : string) : Failure :=
  {| toString := "Error: " +:+ msg; query := None |}.

(** [s.substr(start, len)] and [s.substr(start)]. *)
Definition substr (s : string) (start len : nat) : string :=
  String.substring start len s.

Definition substr_from (s : string) (start : nat) : string :=
  String.substring start (String.length s) s.

(** [s.startsWith(p)]. *)
Definition startsWith (s p : string) : bool := String.prefix p s.

(** [a.includes(x)] on an array of strings. *)
Definition includes (a : list string) (x : string) : bool :=
  existsb (String.eqb x) a.

(** Truthiness of a [string | undefined]: [undefined] and the empty string
    are falsy. *)
Definition truthy (s : option string) : bool :=
  match s with
  | None => false
  | Some s => negb (String.eqb s "")
  end.

(** ** Types.ts *)

Record GuardResult := mkGuardResult {
  accessPermitted : bool;
  error : option string;
  statusCode : option Z;
}.

Inductive ApiMethod := POST | PUT | GET | DELETE.

(** The string value of each enum member. *)
Definition ApiMethod_str (m : ApiMethod) : string :=
  match m with
  | POST => "POST"
  | PUT => "PUT"
  | GET => "GET"
  | DELETE => "DELETE"
  end.

(** The part of an express [Request] the server reads.  [req_ip] is
    [req.ip!]: the source asserts that it is a string. *)
Record Request := mkRequest {
  req_method : string;
  req_path : string;
  req_ip : string;
  req_origin : option string;
}.

(** Bodies passed to [res.send] / [res.json]. *)
Inductive Body :=
| ErrorBody (err : option string)   (* { error: ... } *)
| StatusBody (status : string)      (* { status: ... } *)
| EmptyBody.

(** ** Observable effects

    Every call the server makes on its collaborators is recorded, in order. *)
Inductive Event :=
| EMatchTest (i : nat)                   (* handlers[i].routeMatchTest(req.path) *)
| EGuard (i : nat)                       (* await routeInfo.guards[i](...) *)
| ERespond (code : option Z) (b : Body)  (* res.status(code).send(b) *)
| ENext                                  (* next() *)
| ENextErr (e : Failure)                 (* next(err) *)
| ELogInfo (msg : string)                (* logger.info(msg) *)
| ELogError (msg : string)               (* logger.error(msg) *)
| ELogFailure (e : Failure) (q : option string) (* logger.error(err[, err.query]) *)
| EFinal (e : option Failure).           (* the request leaves the last layer *)

(** Result of a block of code: it runs to its end, or throws. *)
Inductive Outcome (A : Type) :=
| Returned (a : A)
| Threw (e : Failure).
Arguments Returned {A} a.
Arguments Threw {A} e.

(** What the caller of a function sees: a normal return (possibly of a
    promise that fulfils), a synchronous throw, or a promise that rejects. *)
Inductive Completion :=
| Done
| Thrown (e : Failure)
| Rejected (e : Failure).

(** Code with effects: the calls it made, and how it ended. *)
Definition M (A : Type) : Type := list Event * Outcome A.

Definition ret {A} (a : A) : M A := ([], Returned a).

Definition bind {A B} (m : M A) (k : A -> M B) : M B :=
  match m with
  | (tr, Returned a) => let '(tr', o) := k a in (tr ++ tr', o)
  | (tr, Threw e) => (tr, Threw e)
  end.

Declare Scope js_scope.
Delimit Scope js_scope with js.
Notation "'let!' x ':=' m 'in' k" := (bind m (fun x => k))
  (at level 10, x name, m at level 100, k at level 200) : js_scope.
Notation "'do!' m 'in' k" := (bind m (fun _ => k))
  (at level 10, m at level 100, k at level 200) : js_scope.

Definition emit (e : Event) : M unit := ([e], Returned tt).

(** The body of a plain function: a throw reaches the caller. *)
Definition sync (m : M unit) : list Event * Completion :=
  match m with
  | (tr, Returned _) => (tr, Done)
  | (tr, Threw e) => (tr, Thrown e)
  end.

(** The body of an [async] function: a throw rejects the returned promise. *)
Definition async (m : M unit) : list Event * Completion :=
  match m with
  | (tr, Returned _) => (tr, Done)
  | (tr, Threw e) => (tr, Rejected e)
  end.

Definition Handler : Type := Request -> list Event * Completion.

(** An [ApiKeyGuard], called with the request, the route's path pattern and
    the method; its promise rejects or fulfils with a [GuardResult]. *)
Definition ApiKeyGuard : Type := Request -> string -> string -> Failure + GuardResult.

Record RouteData := mkRouteData {
  path : string;
  description : string;
  routeImplementation : Handler;
  method : ApiMethod;
  guards : option (list ApiKeyGuard);
}.

(** [ApiRoute extends RouteData]; the matcher's result is used for its
    truthiness only. *)
Record ApiRoute := mkApiRoute {
  base :> RouteData;
  routeMatchTest : string -> bool;
}.

(** Middleware installed on the express application, in order. *)
Inductive Layer :=
| LCors                 (* use(cors(corsOptions)) *)
| LCorsOptions          (* options('*', cors(corsOptions)) *)
| LLogging              (* use(asyncWrapper(loggingMiddleware)) *)
| LGuard                (* use(asyncWrapper(guardMiddleware)) *)
| LJson                 (* use(express.json(...)) *)
| LRoute (m : ApiMethod) (p : string) (fn : Handler) (* get/post/put/delete(p, asyncWrapper(fn)) *)
| LError.               (* use((err, req, res, next) => ...) *)

(** A server created by [httpServer.listen]. *)
Inductive ServerState :=
| Listening (port : Z)
| Closed.

(** The fields of [class Api]; [servers] is the table of the http servers
    created so far, indexed by handle. *)
Record Api := mkApi {
  httpServer : list Layer;
  runningServer : option nat;
  running : bool;
  handlers : list ApiRoute;
  handlerMap : gmap string ApiRoute;
  servers : list ServerState;
}.

(** ** Sample collaborators and data for the examples *)

(** A framework that writes a response for the status codes 100 to 999 and
    throws for any other code and for a missing one. *)
Definition invalidStatus (shown : string) : Failure :=
  {| toString := "RangeError [ERR_HTTP_INVALID_STATUS_CODE]: Invalid status code: "
                 +:+ shown;
     query := None |}.

Definition nodeWriteHead (code : option Z) : option Failure :=
  match code with
  | Some c => if (100 <=? c) && (c <=? 999) then None else Some (invalidStatus "out of range")
  | None => Some (invalidStatus "undefined")
  end.

(** A matcher compiler for static patterns: the path must equal the pattern. *)
Definition staticMatch (pattern : string) : option (string -> bool) :=
  Some (String.eqb pattern).

Definition okHandler : Handler := fun _ =>
  ([ERespond (Some 200) (StatusBody "ok")], Done).

Definition throwingHandler (e : Failure) : Handler := fun _ => ([], Thrown e).

Definition rejectingHandler (e : Failure) : Handler := fun _ => ([], Rejected e).

Definition allowGuard : ApiKeyGuard := fun _ _ _ =>
  inr {| accessPermitted := true; error := None; statusCode := None |}.

Definition denyGuard : ApiKeyGuard := fun _ _ _ =>
  inr {| accessPermitted := false; error := Some "nope"; statusCode := Some 403 |}.

Definition bareDenyGuard : ApiKeyGuard := fun _ _ _ =>
  inr {| accessPermitted := false; error := Some "nope"; statusCode := None |}.

Definition brokenGuard : ApiKeyGuard := fun _ _ _ => inl (Error "guard failed").

Definition statusDecl : RouteData :=
  {| path := "/"; description := "Check the API is online";
     routeImplementation := okHandler; method := GET; guards := None |}.

Definition secretRoute (gs : list ApiKeyGuard) : ApiRoute :=
  {| base := {| path := "/secret"; description := "guarded";
                routeImplementation := okHandler; method := GET;
                guards := Some gs |};
     routeMatchTest := String.eqb "/secret" |}.

Definition request (m p : string) (origin : option string) : Request :=
  {| req_method := m; req_path := p; req_ip := "::ffff:203.0.113.5";
     req_origin := origin |}.

Definition freshApi (hs : list ApiRoute) : Api :=
  {| httpServer := []; runningServer := None; running := false;
     handlers := hs; handlerMap := ∅; servers := [] |}.

(** A route declared with the empty pattern whose matcher accepts [/]. *)
Definition emptyPatternRoute (gs : list ApiKeyGuard) : ApiRoute :=
  {| base := {| path := ""; description := "empty pattern";
                routeImplementation := okHandler; method := GET;
                guards := Some gs |};
     routeMatchTest := fun p => String.eqb p "/" |}.

Section Server.

(** Collaborators that are not part of the two source files. *)

(** [res.status(code).send(body)] of the framework: [None] when the response
    is written, [Some e] when the call throws [e]. *)
Variable writeHead : option Z -> option Failure.

(** [match(path, { decode })] of path-to-regexp: the compiled matcher, or
    [None] when the pattern is rejected. *)
Variable match_ : string -> option (string -> bool).

(** Route matching of the express router for [app.get(path, ...)] etc. *)
Variable express_match : string -> string -> bool.

(** [express.json]: [Some e] when the body is refused. *)
Variable jsonParser : Request -> option Failure.

(** Constants.ts *)
Variable CORS_WHITELIST : list string.
Variable SERVER_PORT : Z.

Local Open Scope js_scope.

Definition respond (code : option Z) (b : Body) : M unit :=
  do! emit (ERespond code b) in
  match writeHead code with
  | Some e => ([], Threw e)
  | None => ret tt
  end.

Definition next : M unit := emit ENext.

(** *** getStatus *)
Definition getStatus : Handler := fun _ =>
  async (respond (Some 200) (StatusBody "ok")).

(** *** routeData *)
Definition routeData : list RouteData :=
  [ {| path := "/";
       routeImplementation := getStatus;
       method := GET;
       description := "Check the API is online";
       guards := None |} ].

(** *** constructor *)
Definition handlerKey (h : ApiRoute) : string :=
  path h +:+ "-" +:+ ApiMethod_str (method h).

(** [new Map(entries)]: entries are set in order, a later one replaces an
    earlier one with the same key. *)
Definition newMap (entries : list (string * ApiRoute)) : gmap string ApiRoute :=
  foldl (fun m kv => <[kv.1 := kv.2]> m) ∅ entries.

Definition compileRoute (r : RouteData) : option ApiRoute :=
  match match_ (path r) with
  | Some t => Some {| base := r; routeMatchTest := t |}
  | None => None
  end.

Definition constructor (routeData : list RouteData) : option Api :=
  match mapM compileRoute routeData with
  | Some hs =>
      Some {| httpServer := [];
              runningServer := None;
              running := false;
              handlers := hs;
              handlerMap := newMap (map (fun h => (handlerKey h, h)) hs);
              servers := [] |}
  | None => None
  end.

(** *** asyncWrapper

    [Promise.resolve(fn(req, res, next)).catch(next)]: a rejection is passed
    to [next]; a synchronous throw of [fn] leaves the wrapper as a throw. *)
Definition asyncWrapper (fn : Handler) : Handler := fun req =>
  match fn req with
  | (tr, Done) => (tr, Done)
  | (tr, Thrown e) => (tr, Thrown e)
  | (tr, Rejected e) => (tr ++ [ENextErr e], Done)
  end.

(** *** guardMiddleware *)

(** The [for] loop over [this.handlers], with its [break]. *)
Fixpoint findRoute (i : nat) (hs : list ApiRoute) (req : Request)
  : M (option ApiRoute) :=
  match hs with
  | [] => ret None
  | handler :: rest =>
      do! emit (EMatchTest i) in
      if routeMatchTest handler (req_path req)
         && String.eqb (ApiMethod_str (method handler)) (req_method req)
      then ret (Some handler)
      else findRoute (S i) rest req
  end.

Definition awaitGuard (i : nat) (r : Failure + GuardResult) : M GuardResult :=
  do! emit (EGuard i) in
  match r with
  | inl e => ([], Threw e)
  | inr g => ret g
  end.

(** The [for] loop over [routeInfo.guards]; [false] when a guard denied
    access and the function returned. *)
Fixpoint runGuards (i : nat) (gs : list ApiKeyGuard) (req : Request) (p : string)
  : M bool :=
  match gs with
  | [] => ret true
  | guard :: rest =>
      let! g := awaitGuard i (guard req p (req_method req)) in
      if accessPermitted g
      then runGuards (S i) rest req p
      else do! respond (statusCode g) (ErrorBody (error g)) in ret false
  end.

Definition guardMiddleware_body (hs : list ApiRoute) (req : Request) : M unit :=
  if String.eqb (req_method req) "OPTIONS" then next
  else
    let! routeInfo := findRoute 0 hs req in
    match routeInfo with
    | None => respond (Some 404) (ErrorBody (Some "Unknown route"))
    | Some r =>
        if negb (String.eqb (req_method req) (ApiMethod_str (method r)))
           || negb (truthy (Some (path r)))
        then respond (Some 404) (ErrorBody (Some "Unknown route"))
        else
          match guards r with
          | Some gs =>
              let! passed := runGuards 0 gs req (path r) in
              if passed : bool then next else ret tt
          | None => next
          end
    end.

Definition guardMiddleware (hs : list ApiRoute) : Handler := fun req =>
  async (guardMiddleware_body hs req).

(** *** loggingMiddleware *)
Definition loggingMiddleware : Handler := fun req =>
  async (
    let ip := req_ip req in
    let ip := if String.eqb (substr ip 0 7) "::ffff:" then substr_from ip 7 else ip in
    do! emit (ELogInfo ("Recieved request for " +:+ req_method req +:+ " "
                        +:+ req_path req +:+ " from " +:+ ip)) in
    next).

(** *** corsOptions.origin

    The test of the [if], then the function: it logs on refusal and returns
    the error it passes to [callback] ([None] for [callback(null, true)]). *)
Definition originPermitted (origin : option string) : bool :=
  negb (truthy origin)
  || match origin with
     | Some o => includes CORS_WHITELIST o || startsWith o "http://localhost"
     | None => false
     end.

Definition corsOrigin (origin : option string) : list Event * option Failure :=
  if originPermitted origin then ([], None)
  else
    ([ELogError ("Request with origin of " +:+ default "undefined" origin
                 +:+ " is not allowed by CORS!")],
     Some (Error "Not allowed by CORS")).

(** The middleware returned by [cors(corsOptions)]: an error of the origin
    function goes to [next]; otherwise a preflight is answered with 204 and
    any other request continues. *)
Definition corsMiddleware : Handler := fun req =>
  match corsOrigin (req_origin req) with
  | (tr, Some e) => (tr ++ [ENextErr e], Done)
  | (tr, None) =>
      if String.eqb (req_method req) "OPTIONS"
      then sync (do! ((tr, Returned tt) : M unit) in respond (Some 204) EmptyBody)
      else (tr ++ [ENext], Done)
  end.

(** The middleware returned by [express.json]. *)
Definition jsonMiddleware : Handler := fun req =>
  match jsonParser req with
  | Some e => ([ENextErr e], Done)
  | None => ([ENext], Done)
  end.

(** *** The error handler installed last by [init] *)
Definition errorHandler (err : Failure) : Handler := fun _ =>
  sync (
    do! (if truthy (query err)
         then emit (ELogFailure err (query err))
         else emit (ELogFailure err None)) in
    respond (Some 500) (ErrorBody (Some (toString err)))).

(** *** init

    The layers are appended to the application in the order of the calls;
    the [trust proxy] setting has no layer. *)
Definition routeLayer (handler : ApiRoute) : Layer :=
  LRoute (method handler) (path handler) (routeImplementation handler).

Definition pipeline (hs : list ApiRoute) : list Layer :=
  [LCors; LCorsOptions; LLogging; LGuard; LJson] ++ map routeLayer hs ++ [LError].

Definition init (api : Api) : Api :=
  {| httpServer := httpServer api ++ pipeline (handlers api);
     runningServer := runningServer api;
     running := running api;
     handlers := handlers api;
     handlerMap := handlerMap api;
     servers := servers api |}.

(** *** start

    The fields after the call.  Whether the callback of [listen] fires, that
    is whether the returned promise settles, is not part of the model: a
    [Listening] entry records that [listen] was called for that port on a
    server that has not been closed since. *)
Definition start (api : Api) : Api :=
  let api := if negb (running api) then init api else api in
  {| httpServer := httpServer api;
     runningServer := Some (length (servers api));
     running := true;
     handlers := handlers api;
     handlerMap := handlerMap api;
     servers := servers api ++ [Listening SERVER_PORT] |}.

(** *** stop

    [None]: the awaited promise is never resolved. *)
Definition stop (api : Api) : option Api :=
  if running api then
    match runningServer api with
    | Some h =>
        Some {| httpServer := httpServer api;
                runningServer := runningServer api;
                running := false;
                handlers := handlers api;
                handlerMap := handlerMap api;
                servers := <[h := Closed]> (servers api) |}
    | None => None
    end
  else Some api.

(** *** The express router

    A layer is called inside a [try]: what it throws is passed to [next].
    After [next()] the following layer that applies runs; after [next(err)]
    only error handlers run; a layer that calls neither ends the request. *)
Inductive Signal := SNext | SErr (e : Failure) | SHalt.

Fixpoint signal (tr : list Event) : Signal :=
  match tr with
  | [] => SHalt
  | ENext :: _ => SNext
  | ENextErr e :: _ => SErr e
  | _ :: tr => signal tr
  end.

Definition layerHandle (fn : Handler) (req : Request) : list Event :=
  match fn req with
  | (tr, Thrown e) => tr ++ [ENextErr e]
  | (tr, _) => tr
  end.

(** Whether a layer is entered, by method and by the router's path match.
    The path match of [options('*')] is taken to succeed; a path that the
    router cannot decode is outside the model. *)
Definition layerApplies (l : Layer) (req : Request) : bool :=
  match l with
  | LCors | LLogging | LGuard | LJson => true
  | LCorsOptions => String.eqb (req_method req) "OPTIONS"
  | LRoute m p _ => String.eqb (req_method req) (ApiMethod_str m) && express_match p (req_path req)
  | LError => false
  end.

Definition layerFn (api : Api) (l : Layer) : Handler :=
  match l with
  | LCors | LCorsOptions => corsMiddleware
  | LLogging => asyncWrapper loggingMiddleware
  | LGuard => asyncWrapper (guardMiddleware (handlers api))
  | LJson => jsonMiddleware
  | LRoute _ _ fn => asyncWrapper fn
  | LError => fun _ => ([], Done)
  end.

Fixpoint dispatch (api : Api) (stack : list Layer) (err : option Failure)
    (req : Request) : list Event :=
  match stack with
  | [] => [EFinal err]
  | l :: rest =>
      let continue tr :=
        tr ++ match signal tr with
              | SNext => dispatch api rest None req
              | SErr e => dispatch api rest (Some e) req
              | SHalt => []
              end in
      match err, l with
      | Some e, LError => continue (layerHandle (errorHandler e) req)
      | Some e, _ => dispatch api rest (Some e) req
      | None, _ =>
          if layerApplies l req
          then continue (layerHandle (layerFn api l) req)
          else dispatch api rest None req
      end
  end.

Definition serve (api : Api) (req : Request) : list Event :=
  dispatch api (httpServer api) None req.

(** The response on the wire: the first [res.status(code).send(body)] that
    the framework carried out. *)
Fixpoint wireResponse (tr : list Event) : option (option Z * Body) :=
  match tr with
  | [] => None
  | ERespond code b :: tr =>
      match writeHead code with
      | None => Some (code, b)
      | Some _ => wireResponse tr
      end
  | _ :: tr => wireResponse tr
  end.

(** The test of the [if] inside the route loop. *)
Definition accepts (h : ApiRoute) (req : Request) : bool :=
  routeMatchTest h (req_path req)
  && String.eqb (ApiMethod_str (method h)) (req_method req).

(** How [res.status(code).send(...)] as the last statement of an [async]
    function ends it. *)
Definition afterRespond (code : option Z) : Completion :=
  match writeHead code with
  | None => Done
  | Some e => Rejected e
  end.

(** The calls of the error handler for [err]. *)
Definition errorStage (err : Failure) : list Event :=
  [ELogFailure err (if truthy (query err) then query err else None);
   ERespond (Some 500) (ErrorBody (Some (toString err)))].

(** The message logged by the logging stage for a client address. *)
Definition requestLine (req : Request) (ip : string) : string :=
  "Recieved request for " +:+ req_method req +:+ " " +:+ req_path req
  +:+ " from " +:+ ip.


(** The address the logging stage prints for [req.ip]. *)
Definition loggedIp (ip : string) : string :=
  if String.eqb (substr ip 0 7) "::ffff:" then substr_from ip 7 else ip.

(** *** main (the entry point)

    The log lines written and the server left running; [None] when the
    constructor throws and [main]'s promise rejects. *)
Definition main : list Event * option Api :=
  match constructor routeData with
  | Some api =>
      ([ELogInfo "Initializing"; ELogInfo "Launching API...";
        ELogInfo ("API running on 127.0.0.1:" +:+ pretty SERVER_PORT)],
       Some (start api))
  | None => ([ELogInfo "Initializing"], None)
  end.

(** Sequences of calls of [start] and [stop], each awaited before the next;
    [None] when an awaited [stop] never resolves. *)
Inductive LifecycleOp := OpStart | OpStop.

Fixpoint runOps (ops : list LifecycleOp) (api : Api) : option Api :=
  match ops with
  | [] => Some api
  | OpStart :: ops => runOps ops (start api)
  | OpStop :: ops =>
      match stop api with
      | Some api => runOps ops api
      | None => None
      end
  end.

(** * Properties *)

(** ** The guard stage *)

Lemma findRoute_found pre r post i req :
  Forall (fun h => accepts h req = false) pre ->
  accepts r req = true ->
  findRoute i (pre ++ r :: post) req
  = (map EMatchTest (seq i (S (length pre))), Returned (Some r)).
Proof.
  intros Hpre Hr. revert i.
  induction Hpre as [|h pre Hh _ IH]; intros i; cbn [app findRoute].
  - fold (accepts r req). rewrite Hr. reflexivity.
  - fold (accepts h req). rewrite Hh.
    cbn [bind emit]. rewrite (IH (S i)). reflexivity.
Qed.

Lemma findRoute_none hs i req :
  Forall (fun h => accepts h req = false) hs ->
  findRoute i hs req = (map EMatchTest (seq i (length hs)), Returned None).
Proof.
  intros Hhs. revert i.
  induction Hhs as [|h hs Hh _ IH]; intros i; cbn [findRoute].
  - reflexivity.
  - fold (accepts h req). rewrite Hh.
    cbn [bind emit]. rewrite (IH (S i)). reflexivity.
Qed.

Lemma findRoute_split hs req :
  (exists pre r post,
      hs = pre ++ r :: post
      /\ Forall (fun h => accepts h req = false) pre
      /\ accepts r req = true)
  \/ Forall (fun h => accepts h req = false) hs.
Proof.
  induction hs as [|h hs IH].
  - right. constructor.
  - destruct (accepts h req) eqn:Hh.
    + left. exists [], h, hs. repeat split; [constructor | assumption].
    + destruct IH as [(pre & r & post & -> & Hpre & Hr) | Hnone].
      * left. exists (h :: pre), r, post. repeat split; [constructor|]; assumption.
      * right. constructor; assumption.
Qed.

Lemma first_match_unique (pre pre' post post' : list ApiRoute) r r' req :
  pre ++ r :: post = pre' ++ r' :: post' ->
  Forall (fun h => accepts h req = false) pre -> accepts r req = true ->
  Forall (fun h => accepts h req = false) pre' -> accepts r' req = true ->
  pre = pre' /\ r = r' /\ post = post'.
Proof.
  revert pre'. induction pre as [|h pre IH]; intros [|h' pre'] Heq Hpre Hr Hpre' Hr';
    cbn in Heq.
  - injection Heq as -> ->. auto.
  - injection Heq as -> _. inversion Hpre' as [|? ? Hh]; subst. congruence.
  - injection Heq as -> _. inversion Hpre as [|? ? Hh]; subst. congruence.
  - injection Heq as -> Heq. inversion Hpre; inversion Hpre'; subst.
    destruct (IH pre' Heq) as (-> & -> & ->); auto.
Qed.

Lemma runGuards_denied gs req p : forall i k g res,
  gs !! k = Some g ->
  g req p (req_method req) = inr res ->
  accessPermitted res = false ->
  (forall j gj, (j < k)%nat -> gs !! j = Some gj ->
     exists rj, gj req p (req_method req) = inr rj /\ accessPermitted rj = true) ->
  runGuards i gs req p
  = (map EGuard (seq i (S k)) ++ [ERespond (statusCode res) (ErrorBody (error res))],
     match writeHead (statusCode res) with
     | None => Returned false
     | Some e => Threw e
     end).
Proof.
  induction gs as [|g0 gs IH]; intros i k g res Hk Hg Hden Hbefore.
  - discriminate.
  - destruct k as [|k]; cbn [runGuards].
    + injection Hk as ->. rewrite Hg. cbn. rewrite Hden.
      unfold respond. cbn. destruct (writeHead (statusCode res)); reflexivity.
    + destruct (Hbefore 0%nat g0 ltac:(lia) eq_refl) as (r0 & Hr0 & Hp0).
      rewrite Hr0. cbn. rewrite Hp0.
      rewrite (IH (S i) k g res Hk Hg Hden).
      * destruct (writeHead (statusCode res)); reflexivity.
      * intros j gj Hj Hgj. apply (Hbefore (S j) gj); [lia | exact Hgj].
Qed.


Lemma accepts_method h req :
  accepts h req = true -> req_method req = ApiMethod_str (method h).
Proof.
  unfold accepts. intros H. apply andb_true_iff in H as [_ H].
  apply String.eqb_eq in H. congruence.
Qed.

Lemma truthy_path p : p <> "" -> truthy (Some p) = true.
Proof.
  intros Hp. cbn. destruct (String.eqb_spec p ""); [contradiction | reflexivity].
Qed.

Lemma not_options req :
  req_method req <> "OPTIONS" -> String.eqb (req_method req) "OPTIONS" = false.
Proof. intros H. apply String.eqb_neq. exact H. Qed.

Lemma signal_match_tests l tr :
  signal (map EMatchTest l ++ tr) = signal tr.
Proof. induction l; cbn; auto. Qed.

Lemma signal_guards l tr :
  signal (map EGuard l ++ tr) = signal tr.
Proof. induction l; cbn; auto. Qed.

Lemma guardMiddleware_unknown hs req :
  req_method req <> "OPTIONS" ->
  Forall (fun h => accepts h req = false) hs ->
  guardMiddleware hs req
  = (map EMatchTest (seq 0 (length hs))
       ++ [ERespond (Some 404) (ErrorBody (Some "Unknown route"))],
     afterRespond (Some 404)).
Proof.
  intros Hm Hnone. unfold guardMiddleware, guardMiddleware_body, afterRespond.
  rewrite (not_options _ Hm), (findRoute_none _ _ _ Hnone).
  unfold respond. cbn. destruct (writeHead (Some 404)); reflexivity.
Qed.

Lemma guardMiddleware_denied hs req pre r post gs k g res :
  req_method req <> "OPTIONS" ->
  hs = pre ++ r :: post ->
  Forall (fun h => accepts h req = false) pre ->
  accepts r req = true ->
  path r <> "" ->
  guards r = Some gs ->
  gs !! k = Some g ->
  g req (path r) (req_method req) = inr res ->
  accessPermitted res = false ->
  (forall j gj, (j < k)%nat -> gs !! j = Some gj ->
     exists rj, gj req (path r) (req_method req) = inr rj
                /\ accessPermitted rj = true) ->
  guardMiddleware hs req
  = (map EMatchTest (seq 0 (S (length pre)))
       ++ map EGuard (seq 0 (S k))
       ++ [ERespond (statusCode res) (ErrorBody (error res))],
     afterRespond (statusCode res)).
Proof.
  intros Hm -> Hpre Hr Hp Hgs Hk Hg Hden Hbefore.
  unfold guardMiddleware, guardMiddleware_body, afterRespond.
  rewrite (not_options _ Hm), (findRoute_found _ _ _ _ _ Hpre Hr).
  cbn [bind]. rewrite (accepts_method _ _ Hr), String.eqb_refl, (truthy_path _ Hp).
  cbn [negb orb]. rewrite Hgs.
  rewrite (runGuards_denied _ _ _ _ _ _ _ Hk Hg Hden Hbefore).
  cbn [bind]. destruct (writeHead (statusCode res)); cbn [ret async];
    rewrite ?app_nil_r; reflexivity.
Qed.

(** C2: route resolution tests the registered routes in declaration order and
    selects the first one whose matcher accepts the path and whose method is
    the request's; when no route passes both tests the stage answers
    404 [{ error: 'Unknown route' }] and does not call [next]. *)
Theorem route_resolution_first_match hs req :
  req_method req <> "OPTIONS" ->
  (forall pre r post,
      hs = pre ++ r :: post ->
      Forall (fun h => accepts h req = false) pre ->
      accepts r req = true ->
      findRoute 0 hs req
      = (map EMatchTest (seq 0 (S (length pre))), Returned (Some r)))
  /\ (forall r,
      snd (findRoute 0 hs req) = Returned (Some r) ->
      exists pre post,
        hs = pre ++ r :: post
        /\ Forall (fun h => accepts h req = false) pre
        /\ accepts r req = true)
  /\ (Forall (fun h => accepts h req = false) hs ->
      guardMiddleware hs req
      = (map EMatchTest (seq 0 (length hs))
           ++ [ERespond (Some 404) (ErrorBody (Some "Unknown route"))],
         afterRespond (Some 404))
      /\ forall api rest,
          handlers api = hs ->
          writeHead (Some 404) = None ->
          dispatch api (LGuard :: rest) None req
          = map EMatchTest (seq 0 (length hs))
              ++ [ERespond (Some 404) (ErrorBody (Some "Unknown route"))]).
Proof.
  intros Hm. split; [| split].
  - intros pre r post -> Hpre Hr. apply findRoute_found; assumption.
  - intros r Hfind.
    destruct (findRoute_split hs req) as [(pre & r' & post & -> & Hpre & Hr') | Hnone].
    + rewrite (findRoute_found _ _ _ _ _ Hpre Hr') in Hfind.
      cbn in Hfind. injection Hfind as <-. eauto.
    + rewrite (findRoute_none _ _ _ Hnone) in Hfind. discriminate.
  - intros Hnone. split; [apply guardMiddleware_unknown; assumption |].
    intros api rest Hapi Hw.
    cbn [dispatch layerApplies layerFn]. unfold layerHandle, asyncWrapper.
    rewrite Hapi, (guardMiddleware_unknown _ _ Hm Hnone).
    unfold afterRespond. rewrite Hw.
    rewrite signal_match_tests. cbn [signal]. rewrite app_nil_r. reflexivity.
Qed.

(** C3: an OPTIONS request passes the guard stage unconditionally: the stage
    calls [next] at once, tests no route matcher, evaluates no guard and
    writes no response, whatever routes and guards are registered. *)
Theorem options_bypass_guards hs req :
  req_method req = "OPTIONS" ->
  guardMiddleware hs req = ([ENext], Done)
  /\ forall api rest,
      handlers api = hs ->
      dispatch api (LGuard :: rest) None req
      = ENext :: dispatch api rest None req.
Proof.
  intros Hm.
  assert (Hg : guardMiddleware hs req = ([ENext], Done)).
  { unfold guardMiddleware, guardMiddleware_body. rewrite Hm. reflexivity. }
  split; [exact Hg |].
  intros api rest Hapi. cbn [dispatch layerApplies layerFn].
  unfold layerHandle, asyncWrapper. rewrite Hapi, Hg. reflexivity.
Qed.

(** ** The express router and the error handler *)

Lemma signal_app_quiet tr tr' :
  signal tr = SHalt -> signal (tr ++ tr') = signal tr'.
Proof.
  induction tr as [|ev tr IH]; [reflexivity |].
  destruct ev; cbn; auto; discriminate.
Qed.

Lemma wireResponse_app tr tr' :
  wireResponse (tr ++ tr')
  = match wireResponse tr with
    | Some r => Some r
    | None => wireResponse tr'
    end.
Proof.
  induction tr as [|ev tr IH]; [reflexivity |].
  destruct ev; cbn; auto. destruct (writeHead code); auto.
Qed.

Lemma wireResponse_match_tests l tr :
  wireResponse (map EMatchTest l ++ tr) = wireResponse tr.
Proof. induction l; cbn; auto. Qed.

Lemma wireResponse_guards l tr :
  wireResponse (map EGuard l ++ tr) = wireResponse tr.
Proof. induction l; cbn; auto. Qed.

(** C1, as the code has it: for a request (not OPTIONS) resolved to a route
    with a guard chain and a non-empty path pattern, the guards run one after
    the other in declared order; at the first guard that denies access the
    stage calls [res.status(...).send(...)] with exactly that guard's
    [statusCode] and [error], and no later guard is evaluated.  When the
    framework writes a response for that status code, the response carries
    exactly that status and error. *)
Theorem guard_chain_short_circuit hs req pre r post gs k g res :
  req_method req <> "OPTIONS" ->
  hs = pre ++ r :: post ->
  Forall (fun h => accepts h req = false) pre ->
  accepts r req = true ->
  path r <> "" ->
  guards r = Some gs ->
  gs !! k = Some g ->
  g req (path r) (req_method req) = inr res ->
  accessPermitted res = false ->
  (forall j gj, (j < k)%nat -> gs !! j = Some gj ->
     exists rj, gj req (path r) (req_method req) = inr rj
                /\ accessPermitted rj = true) ->
  guardMiddleware hs req
  = (map EMatchTest (seq 0 (S (length pre)))
       ++ map EGuard (seq 0 (S k))
       ++ [ERespond (statusCode res) (ErrorBody (error res))],
     afterRespond (statusCode res))
  /\ (writeHead (statusCode res) = None ->
      wireResponse (fst (guardMiddleware hs req))
      = Some (statusCode res, ErrorBody (error res))).
Proof.
  intros Hm Hhs Hpre Hr Hp Hgs Hk Hg Hden Hbefore.
  pose proof (guardMiddleware_denied hs req pre r post gs k g res
                Hm Hhs Hpre Hr Hp Hgs Hk Hg Hden Hbefore) as Hg'.
  split; [exact Hg' |].
  intros Hw. rewrite Hg'. cbn [fst].
  rewrite wireResponse_match_tests, wireResponse_guards.
  cbn [wireResponse]. rewrite Hw. reflexivity.
Qed.

Lemma errorHandler_trace e req :
  writeHead (Some 500) = None ->
  layerHandle (errorHandler e) req = errorStage e.
Proof.
  intros Hw. unfold layerHandle, errorHandler, errorStage, respond.
  destruct (truthy (query e)); cbn; rewrite Hw; reflexivity.
Qed.

Lemma signal_errorStage e : signal (errorStage e) = SHalt.
Proof. reflexivity. Qed.

Lemma wireResponse_errorStage e :
  writeHead (Some 500) = None ->
  wireResponse (errorStage e) = Some (Some 500, ErrorBody (Some (toString e))).
Proof. intros Hw. cbn. rewrite Hw. reflexivity. Qed.

(** With an error pending, every layer up to the error handler is skipped. *)
Lemma dispatch_pending_error api pre post e req :
  writeHead (Some 500) = None ->
  Forall (fun l => l <> LError) pre ->
  dispatch api (pre ++ LError :: post) (Some e) req = errorStage e.
Proof.
  intros Hw Hpre. induction Hpre as [|l pre Hl _ IH]; cbn [app dispatch].
  - rewrite (errorHandler_trace _ _ Hw), signal_errorStage. apply app_nil_r.
  - destruct l; auto. contradiction.
Qed.


(** C4: a handler failure reaches the error handler whether the handler
    throws while it is called or returns a promise that rejects later; the
    error handler answers 500 with [{ error: err.toString() }], and for the
    same failure value both cases give the same status and body. *)
Theorem handler_failure_single_path api m p fsync fasync rest req ts ta e :
  writeHead (Some 500) = None ->
  String.eqb (req_method req) (ApiMethod_str m) && express_match p (req_path req) = true ->
  Forall (fun l => l <> LError) rest ->
  fsync req = (ts, Thrown e) ->
  fasync req = (ta, Rejected e) ->
  signal ts = SHalt -> wireResponse ts = None ->
  signal ta = SHalt -> wireResponse ta = None ->
  dispatch api (LRoute m p fsync :: rest ++ [LError]) None req
    = ts ++ ENextErr e :: errorStage e
  /\ dispatch api (LRoute m p fasync :: rest ++ [LError]) None req
    = ta ++ ENextErr e :: errorStage e
  /\ wireResponse (dispatch api (LRoute m p fsync :: rest ++ [LError]) None req)
    = Some (Some 500, ErrorBody (Some (toString e)))
  /\ wireResponse (dispatch api (LRoute m p fasync :: rest ++ [LError]) None req)
    = Some (Some 500, ErrorBody (Some (toString e))).
Proof.
  intros Hw Happ Hrest Hs Ha Hsig_s Hwire_s Hsig_a Hwire_a.
  assert (Ds : dispatch api (LRoute m p fsync :: rest ++ [LError]) None req
               = ts ++ ENextErr e :: errorStage e).
  { cbn [dispatch layerApplies layerFn]. rewrite Happ.
    unfold layerHandle, asyncWrapper. rewrite Hs.
    rewrite (signal_app_quiet _ _ Hsig_s). cbn [signal].
    rewrite (dispatch_pending_error _ _ _ _ _ Hw Hrest).
    rewrite <- app_assoc. reflexivity. }
  assert (Da : dispatch api (LRoute m p fasync :: rest ++ [LError]) None req
               = ta ++ ENextErr e :: errorStage e).
  { cbn [dispatch layerApplies layerFn]. rewrite Happ.
    unfold layerHandle, asyncWrapper. rewrite Ha.
    rewrite (signal_app_quiet _ _ Hsig_a). cbn [signal].
    rewrite (dispatch_pending_error _ _ _ _ _ Hw Hrest).
    rewrite <- app_assoc. reflexivity. }
  rewrite Ds, Da, !wireResponse_app, Hwire_s, Hwire_a.
  cbn [wireResponse]. rewrite (wireResponse_errorStage _ Hw). auto.
Qed.

(** C8: when a guard denies access without a [statusCode] and the framework
    refuses to write a response without a status by throwing, the rejection
    of the guard stage is passed to the error handler and the server answers
    500: the request neither succeeds nor escapes the pipeline. *)
Theorem guard_missing_status_is_500 api req pre r post gs k g res e rest :
  writeHead None = Some e ->
  writeHead (Some 500) = None ->
  req_method req <> "OPTIONS" ->
  handlers api = pre ++ r :: post ->
  Forall (fun h => accepts h req = false) pre ->
  accepts r req = true ->
  path r <> "" ->
  guards r = Some gs ->
  gs !! k = Some g ->
  g req (path r) (req_method req) = inr res ->
  accessPermitted res = false ->
  statusCode res = None ->
  (forall j gj, (j < k)%nat -> gs !! j = Some gj ->
     exists rj, gj req (path r) (req_method req) = inr rj
                /\ accessPermitted rj = true) ->
  Forall (fun l => l <> LError) rest ->
  dispatch api (LGuard :: rest ++ [LError]) None req
    = map EMatchTest (seq 0 (S (length pre)))
        ++ map EGuard (seq 0 (S k))
        ++ [ERespond None (ErrorBody (error res)); ENextErr e]
        ++ errorStage e
  /\ wireResponse (dispatch api (LGuard :: rest ++ [LError]) None req)
    = Some (Some 500, ErrorBody (Some (toString e))).
Proof.
  intros Hnone Hw Hm Hapi Hpre Hr Hp Hgs Hk Hg Hden Hsc Hbefore Hrest.
  assert (D : dispatch api (LGuard :: rest ++ [LError]) None req
    = map EMatchTest (seq 0 (S (length pre)))
        ++ map EGuard (seq 0 (S k))
        ++ [ERespond None (ErrorBody (error res)); ENextErr e]
        ++ errorStage e).
  { cbn [dispatch layerApplies layerFn]. unfold layerHandle, asyncWrapper.
    rewrite (guardMiddleware_denied _ req pre r post gs k g res
               Hm Hapi Hpre Hr Hp Hgs Hk Hg Hden Hbefore).
    unfold afterRespond. rewrite Hsc, Hnone.
    rewrite <- !app_assoc, signal_match_tests, signal_guards. cbn [app signal].
    rewrite (dispatch_pending_error _ _ _ _ _ Hw Hrest). reflexivity. }
  split; [exact D |].
  rewrite D, wireResponse_match_tests, wireResponse_guards.
  cbn [app wireResponse]. rewrite Hnone.
  exact (wireResponse_errorStage _ Hw).
Qed.

(** ** The CORS stage *)







(** ** The logging stage *)

Lemma substring_all s : forall n,
  (String.length s <= n)%nat -> String.substring 0 n s = s.
Proof.
  induction s as [|c s IH]; intros [|n] Hn; cbn in *; try reflexivity; try lia.
  rewrite IH; [reflexivity | lia].
Qed.

Lemma substr_from_mapped rest : substr_from ("::ffff:" +:+ rest) 7 = rest.
Proof.
  unfold substr_from. cbn. apply substring_all.
  unfold String.append. cbn. lia.
Qed.

Lemma substr_mapped rest : substr ("::ffff:" +:+ rest) 0 7 = "::ffff:".
Proof. unfold substr. cbn. destruct rest; reflexivity. Qed.

Lemma substr_not_mapped ip :
  startsWith ip "::ffff:" = false ->
  String.eqb (substr ip 0 7) "::ffff:" = false.
Proof.
  unfold startsWith, substr. intros Hp. apply String.eqb_neq. intros Heq.
  assert (H : String.prefix "::ffff:" ip = true).
  { apply String.prefix_correct. exact Heq. }
  congruence.
Qed.

(** C9: the logging stage writes no response, always calls [next] so that the
    following stage runs, and logs the client address with a leading
    [::ffff:] removed. *)
Theorem logging_is_observer req :
  exists ip,
    loggingMiddleware req = ([ELogInfo (requestLine req ip); ENext], Done)
    /\ (forall rest, req_ip req = "::ffff:" +:+ rest -> ip = rest)
    /\ (startsWith (req_ip req) "::ffff:" = false -> ip = req_ip req)
    /\ forall api rest,
        dispatch api (LLogging :: rest) None req
        = [ELogInfo (requestLine req ip); ENext] ++ dispatch api rest None req.
Proof.
  set (ip := if String.eqb (substr (req_ip req) 0 7) "::ffff:"
             then substr_from (req_ip req) 7 else req_ip req).
  assert (Hl : loggingMiddleware req = ([ELogInfo (requestLine req ip); ENext], Done))
    by reflexivity.
  exists ip. split; [exact Hl |]. split; [| split].
  - intros rest Hip. subst ip. rewrite Hip, substr_mapped, String.eqb_refl.
    apply substr_from_mapped.
  - intros Hp. subst ip. rewrite (substr_not_mapped _ Hp). reflexivity.
  - intros api rest. cbn [dispatch layerApplies layerFn].
    unfold layerHandle, asyncWrapper. rewrite Hl. reflexivity.
Qed.

(** ** The route registry *)

Lemma mapM_compileRoute rd :
  Forall (fun r => is_Some (match_ (path r))) rd ->
  exists hs, mapM compileRoute rd = Some hs /\ map base hs = rd.
Proof.
  induction 1 as [|r rd [t Ht] _ (hs & Hhs & Hbase)].
  - exists []. split; reflexivity.
  - exists ({| base := r; routeMatchTest := t |} :: hs). split.
    + apply mapM_Some_2. constructor.
      * unfold compileRoute. rewrite Ht. reflexivity.
      * apply mapM_Some_1. exact Hhs.
    + cbn. rewrite Hbase. reflexivity.
Qed.

Lemma foldl_set_lookup (hs : list ApiRoute) : forall (m : gmap string ApiRoute) k,
  foldl (fun m kv => <[kv.1 := kv.2]> m) m (map (fun h => (handlerKey h, h)) hs) !! k
  = match last (filter (fun h => handlerKey h = k) hs) with
    | Some h => Some h
    | None => m !! k
    end.
Proof.
  induction hs as [|h hs IH]; intros m k; [reflexivity |].
  cbn [map foldl fst snd]. rewrite IH, filter_cons.
  destruct (decide (handlerKey h = k)) as [Hk | Hk].
  - rewrite last_cons.
    destruct (last (filter (fun h0 => handlerKey h0 = k) hs)); [reflexivity |].
    rewrite <- Hk. apply lookup_insert_eq.
  - destruct (last (filter (fun h0 => handlerKey h0 = k) hs)); [reflexivity |].
    apply lookup_insert_ne. exact Hk.
Qed.

Lemma newMap_lookup hs k :
  newMap (map (fun h => (handlerKey h, h)) hs) !! k
  = last (filter (fun h => handlerKey h = k) hs).
Proof.
  unfold newMap. rewrite foldl_set_lookup.
  destruct (last (filter (fun h => handlerKey h = k) hs)); [reflexivity |].
  apply lookup_empty.
Qed.

Lemma lookup_map_base (hs : list ApiRoute) i r :
  map base hs !! i = Some r -> exists h, hs !! i = Some h /\ base h = r.
Proof.
  revert i. induction hs as [|h hs IH]; intros [|i] Hi; try discriminate.
  - injection Hi as <-. exists h. auto.
  - apply (IH i Hi).
Qed.

(** C7, as the code has it: two declarations with the same path and method do
    not make registration fail.  When every path pattern compiles the
    constructor succeeds, keeps both declarations at their positions in the
    handler list, indexes each key by the last declaration that has it, and
    [start] brings the server up. *)
Theorem constructor_keeps_colliding_routes rd i j ri rj :
  (i < j)%nat ->
  rd !! i = Some ri ->
  rd !! j = Some rj ->
  path ri = path rj ->
  method ri = method rj ->
  Forall (fun r => is_Some (match_ (path r))) rd ->
  exists api hi hj,
    constructor rd = Some api
    /\ map base (handlers api) = rd
    /\ handlers api !! i = Some hi /\ base hi = ri
    /\ handlers api !! j = Some hj /\ base hj = rj
    /\ handlerKey hi = handlerKey hj
    /\ (forall k,
          handlerMap api !! k
          = last (filter (fun h => handlerKey h = k) (handlers api)))
    /\ running (start api) = true.
Proof.
  intros Hij Hi Hj Hpath Hmeth Hall.
  destruct (mapM_compileRoute rd Hall) as (hs & Hhs & Hbase).
  rewrite <- Hbase in Hi, Hj.
  destruct (lookup_map_base _ _ _ Hi) as (hi & Hhi & Hbi).
  destruct (lookup_map_base _ _ _ Hj) as (hj & Hhj & Hbj).
  unfold constructor. rewrite Hhs. eexists _, hi, hj.
  split; [reflexivity |]. cbn [handlers handlerMap].
  repeat split; auto.
  - unfold handlerKey. rewrite Hbi, Hbj, Hpath, Hmeth. reflexivity.
  - intros k. apply newMap_lookup.
Qed.

(** ** start and stop *)

(** C6 on the code: a second [start] does not run [init] again, but it calls
    [listen] once more: a second server is created for the same port and
    replaces the handle kept in [runningServer]. *)
Theorem start_twice_listens_twice api :
  httpServer (start (start api)) = httpServer (start api)
  /\ servers (start (start api))
     = servers api ++ [Listening SERVER_PORT; Listening SERVER_PORT]
  /\ runningServer (start api) = Some (length (servers api))
  /\ runningServer (start (start api)) = Some (S (length (servers api))).
Proof.
  assert (Hs : servers (start api) = servers api ++ [Listening SERVER_PORT]).
  { unfold start. destruct (running api); reflexivity. }
  assert (Hr : running (start api) = true) by reflexivity.
  assert (H2 : forall a, running a = true ->
                 httpServer (start a) = httpServer a
                 /\ servers (start a) = servers a ++ [Listening SERVER_PORT]
                 /\ runningServer (start a) = Some (length (servers a))).
  { intros a Ha. unfold start. rewrite Ha. cbn. auto. }
  destruct (H2 (start api) Hr) as (Hh & Hs2 & Hrs2).
  split; [exact Hh |]. split; [| split].
  - rewrite Hs2, Hs, <- app_assoc. reflexivity.
  - unfold start. destruct (running api); reflexivity.
  - rewrite Hrs2, Hs, length_app. cbn. f_equal. lia.
Qed.

(** C10: in [start], [stop], [start] the second [start] finds
    [running = false] and runs [init] again on the same application, so the
    layer stack holds the whole pipeline twice. *)
Theorem restart_runs_init_again api :
  running api = false ->
  exists stopped,
    stop (start api) = Some stopped
    /\ running stopped = false
    /\ httpServer (start api) = httpServer api ++ pipeline (handlers api)
    /\ httpServer (start stopped)
       = (httpServer api ++ pipeline (handlers api)) ++ pipeline (handlers api).
Proof.
  intros Hr. unfold stop, start. rewrite Hr. cbn.
  eexists. split; [reflexivity |]. cbn. auto.
Qed.

(** ** Further properties of the guard stage *)

Lemma runGuards_rejected gs req p : forall i k g e,
  gs !! k = Some g ->
  g req p (req_method req) = inl e ->
  (forall j gj, (j < k)%nat -> gs !! j = Some gj ->
     exists rj, gj req p (req_method req) = inr rj /\ accessPermitted rj = true) ->
  runGuards i gs req p = (map EGuard (seq i (S k)), Threw e).
Proof.
  induction gs as [|g0 gs IH]; intros i k g e Hk Hg Hbefore.
  - discriminate.
  - destruct k as [|k]; cbn [runGuards].
    + injection Hk as ->. rewrite Hg. reflexivity.
    + destruct (Hbefore 0%nat g0 ltac:(lia) eq_refl) as (r0 & Hr0 & Hp0).
      rewrite Hr0. cbn. rewrite Hp0.
      rewrite (IH (S i) k g e Hk Hg); [reflexivity |].
      intros j gj Hj Hgj. apply (Hbefore (S j) gj); [lia | exact Hgj].
Qed.

Lemma guardMiddleware_resolved pre r post req :
  req_method req <> "OPTIONS" ->
  Forall (fun h => accepts h req = false) pre ->
  accepts r req = true ->
  path r <> "" ->
  guardMiddleware_body (pre ++ r :: post) req
  = bind (map EMatchTest (seq 0 (S (length pre))), Returned tt)
      (fun _ =>
         match guards r with
         | Some gs =>
             bind (runGuards 0 gs req (path r))
                  (fun passed => if passed : bool then next else ret tt)
         | None => next
         end).
Proof.
  intros Hm Hpre Hr Hp. unfold guardMiddleware_body.
  rewrite (not_options _ Hm), (findRoute_found _ _ _ _ _ Hpre Hr).
  cbn [bind]. rewrite (accepts_method _ _ Hr), String.eqb_refl, (truthy_path _ Hp).
  reflexivity.
Qed.


(** A guard whose promise rejects: the guards before it were evaluated, no
    later guard is, the stage writes nothing itself, and the rejection is
    answered by the error handler with 500 and the failure's string. *)
Theorem guard_rejection_is_500 api req pre r post gs k g e rest :
  writeHead (Some 500) = None ->
  req_method req <> "OPTIONS" ->
  handlers api = pre ++ r :: post ->
  Forall (fun h => accepts h req = false) pre ->
  accepts r req = true ->
  path r <> "" ->
  guards r = Some gs ->
  gs !! k = Some g ->
  g req (path r) (req_method req) = inl e ->
  (forall j gj, (j < k)%nat -> gs !! j = Some gj ->
     exists rj, gj req (path r) (req_method req) = inr rj
                /\ accessPermitted rj = true) ->
  Forall (fun l => l <> LError) rest ->
  guardMiddleware (handlers api) req
    = (map EMatchTest (seq 0 (S (length pre))) ++ map EGuard (seq 0 (S k)),
       Rejected e)
  /\ dispatch api (LGuard :: rest ++ [LError]) None req
    = map EMatchTest (seq 0 (S (length pre)))
        ++ map EGuard (seq 0 (S k))
        ++ [ENextErr e]
        ++ errorStage e
  /\ wireResponse (dispatch api (LGuard :: rest ++ [LError]) None req)
    = Some (Some 500, ErrorBody (Some (toString e))).
Proof.
  intros Hw Hm Hapi Hpre Hr Hp Hgs Hk Hg Hbefore Hrest.
  assert (Hgm : guardMiddleware (handlers api) req
    = (map EMatchTest (seq 0 (S (length pre))) ++ map EGuard (seq 0 (S k)),
       Rejected e)).
  { rewrite Hapi. unfold guardMiddleware.
    rewrite (guardMiddleware_resolved _ _ _ _ Hm Hpre Hr Hp), Hgs.
    rewrite (runGuards_rejected _ _ _ _ _ _ _ Hk Hg Hbefore). reflexivity. }
  assert (D : dispatch api (LGuard :: rest ++ [LError]) None req
    = map EMatchTest (seq 0 (S (length pre)))
        ++ map EGuard (seq 0 (S k))
        ++ [ENextErr e]
        ++ errorStage e).
  { cbn [dispatch layerApplies layerFn]. unfold layerHandle, asyncWrapper.
    rewrite Hgm.
    rewrite <- !app_assoc, signal_match_tests, signal_guards. cbn [app signal].
    rewrite (dispatch_pending_error _ _ _ _ _ Hw Hrest). reflexivity. }
  split; [exact Hgm |]. split; [exact D |].
  rewrite D, wireResponse_match_tests, wireResponse_guards.
  cbn [app wireResponse]. exact (wireResponse_errorStage _ Hw).
Qed.

(** A route declared with the empty path pattern is treated as unknown even
    when its matcher and method accept the request: the stage answers 404
    and evaluates none of the route's guards. *)
Theorem empty_pattern_route_is_unknown hs req pre r post :
  req_method req <> "OPTIONS" ->
  hs = pre ++ r :: post ->
  Forall (fun h => accepts h req = false) pre ->
  accepts r req = true ->
  path r = "" ->
  guardMiddleware hs req
  = (map EMatchTest (seq 0 (S (length pre)))
       ++ [ERespond (Some 404) (ErrorBody (Some "Unknown route"))],
     afterRespond (Some 404)).
Proof.
  intros Hm -> Hpre Hr Hp.
  unfold guardMiddleware, guardMiddleware_body, afterRespond.
  rewrite (not_options _ Hm), (findRoute_found _ _ _ _ _ Hpre Hr).
  cbn [bind]. rewrite Hp. cbn [truthy String.eqb negb]. rewrite orb_true_r.
  unfold respond. cbn. destruct (writeHead (Some 404)); reflexivity.
Qed.

(** A request whose method is neither OPTIONS nor one of the four members of
    [ApiMethod] (HEAD, PATCH, ...) is answered 404 whatever routes are
    registered; every matcher is still tested on the way. *)
Theorem unsupported_method_is_unknown hs req :
  req_method req <> "OPTIONS" ->
  (forall m, req_method req <> ApiMethod_str m) ->
  guardMiddleware hs req
  = (map EMatchTest (seq 0 (length hs))
       ++ [ERespond (Some 404) (ErrorBody (Some "Unknown route"))],
     afterRespond (Some 404)).
Proof.
  intros Hm Hnone. apply guardMiddleware_unknown; [exact Hm |].
  apply Forall_forall. intros h _. unfold accepts.
  apply andb_false_iff. right. apply String.eqb_neq.
  intros Heq. apply (Hnone (method h)). symmetry. exact Heq.
Qed.




(** ** asyncWrapper *)

(** The wrapped function never hands a rejected promise to its caller: a
    rejection has been passed to [next].  A function that fulfils is left as
    it is, and wrapping twice is the same as wrapping once. *)
Theorem asyncWrapper_absorbs_rejections (fn : Handler) req :
  (forall e, snd (asyncWrapper fn req) <> Rejected e)
  /\ (forall tr e, fn req = (tr, Rejected e) ->
        asyncWrapper fn req = (tr ++ [ENextErr e], Done))
  /\ (snd (fn req) = Done -> asyncWrapper fn req = fn req)
  /\ asyncWrapper (asyncWrapper fn) req = asyncWrapper fn req.
Proof.
  unfold asyncWrapper. destruct (fn req) as [tr [| e | e]]; cbn.
  all: repeat split; try discriminate; try reflexivity.
  all: try (intros tr' e' H; injection H as <- <-; reflexivity).
  all: intros tr' e' H; discriminate H.
Qed.

(** ** Further properties of the route registry *)

Lemma compileRoute_None r : compileRoute r = None <-> match_ (path r) = None.
Proof.
  unfold compileRoute. destruct (match_ (path r)); split; intros H;
    (discriminate H || reflexivity).
Qed.

(** The constructor throws exactly when path-to-regexp rejects the pattern of
    some declaration. *)
Theorem constructor_fails_iff rd :
  constructor rd = None <-> Exists (fun r => match_ (path r) = None) rd.
Proof.
  unfold constructor.
  destruct (mapM compileRoute rd) as [hs|] eqn:Hm.
  - split; [discriminate |]. intros Hex.
    assert (Hnone : mapM compileRoute rd = None).
    { apply mapM_None. eapply Exists_impl; [exact Hex |].
      intros r Hr. apply compileRoute_None. exact Hr. }
    congruence.
  - split; [| reflexivity]. intros _.
    apply mapM_None in Hm. eapply Exists_impl; [exact Hm |].
    intros r Hr. apply compileRoute_None. exact Hr.
Qed.

Lemma compileRoute_Some r h :
  compileRoute r = Some h ->
  base h = r /\ match_ (path r) = Some (routeMatchTest h).
Proof.
  unfold compileRoute. destruct (match_ (path r)) as [t|]; [| discriminate].
  intros H. injection H as <-. split; reflexivity.
Qed.

(** A constructed server is stopped, has no layer and no http server yet,
    and holds one handler per declaration, in declaration order, each with
    the matcher compiled from its own path. *)
Theorem constructor_registry_shape rd api :
  constructor rd = Some api ->
  httpServer api = [] /\ running api = false /\ runningServer api = None
  /\ servers api = []
  /\ Forall2 (fun r h => base h = r /\ match_ (path r) = Some (routeMatchTest h))
             rd (handlers api).
Proof.
  unfold constructor. destruct (mapM compileRoute rd) as [hs|] eqn:Hm;
    [| discriminate].
  intros H. injection H as <-. cbn. repeat split.
  apply mapM_Some_1 in Hm. eapply Forall2_impl; [exact Hm |].
  intros r h Hrh. apply compileRoute_Some. exact Hrh.
Qed.

Lemma ascii_list_app a b :
  String.list_ascii_of_string (a +:+ b)
  = String.list_ascii_of_string a ++ String.list_ascii_of_string b.
Proof.
  induction a as [|c a IH]; [reflexivity |].
  change (String c a +:+ b) with (String c (a +:+ b)).
  cbn [String.list_ascii_of_string app]. rewrite IH. reflexivity.
Qed.

Lemma ascii_list_inj a b :
  String.list_ascii_of_string a = String.list_ascii_of_string b -> a = b.
Proof.
  intros H. rewrite <- (String.string_of_list_ascii_of_string a),
    <- (String.string_of_list_ascii_of_string b), H. reflexivity.
Qed.

Lemma handlerKey_pair_inj p1 m1 p2 m2 :
  p1 +:+ "-" +:+ ApiMethod_str m1 = p2 +:+ "-" +:+ ApiMethod_str m2 ->
  p1 = p2 /\ m1 = m2.
Proof.
  intros H. apply (f_equal String.list_ascii_of_string) in H.
  rewrite !ascii_list_app in H.
  apply (f_equal (@rev _)) in H. rewrite !rev_app_distr in H.
  destruct m1, m2; cbn in H; try discriminate H.
  all: split; [| reflexivity].
  all: apply ascii_list_inj.
  all: rewrite <- (rev_involutive (String.list_ascii_of_string p1)),
         <- (rev_involutive (String.list_ascii_of_string p2)).
  all: f_equal; congruence.
Qed.

(** The index key [path-method] identifies the pair: two routes have the
    same key only when they have the same path and the same method. *)
Theorem handlerKey_inj (h1 h2 : ApiRoute) :
  handlerKey h1 = handlerKey h2 -> path h1 = path h2 /\ method h1 = method h2.
Proof. unfold handlerKey. apply handlerKey_pair_inj. Qed.

Lemma last_filter_elem (hs : list ApiRoute) k h :
  last (filter (fun h => handlerKey h = k) hs) = Some h ->
  h ∈ hs /\ handlerKey h = k.
Proof.
  intros Hl. apply last_Some_elem_of in Hl.
  apply list_elem_of_filter in Hl as [Hk Hin]. auto.
Qed.

(** The index of a constructed server has exactly the keys of the registered
    handlers, and the route stored under a key is a registered handler that
    bears this key; a key of no handler is not found. *)
Theorem handlerMap_keys rd api k :
  constructor rd = Some api ->
  (is_Some (handlerMap api !! k)
   <-> exists h, h ∈ handlers api /\ handlerKey h = k)
  /\ (forall h, handlerMap api !! k = Some h ->
        h ∈ handlers api /\ handlerKey h = k)
  /\ ((forall h, h ∈ handlers api -> handlerKey h <> k) ->
        handlerMap api !! k = None).
Proof.
  unfold constructor. destruct (mapM compileRoute rd) as [hs|]; [| discriminate].
  intros H. injection H as <-. cbn [handlers handlerMap].
  rewrite newMap_lookup.
  assert (Hsound : forall h,
    last (filter (fun h0 => handlerKey h0 = k) hs) = Some h ->
    h ∈ hs /\ handlerKey h = k) by (intros h; apply last_filter_elem).
  split; [| split].
  - split.
    + intros [h Hh]. exists h. apply Hsound. exact Hh.
    + intros (h & Hin & Hk).
      destruct (last (filter (fun h0 => handlerKey h0 = k) hs)) eqn:Hl; [eauto |].
      apply last_None in Hl.
      assert (Hf : h ∈ filter (fun h0 => handlerKey h0 = k) hs)
        by (apply list_elem_of_filter; auto).
      rewrite Hl in Hf. inversion Hf.
  - exact Hsound.
  - intros Hnone.
    destruct (last (filter (fun h0 => handlerKey h0 = k) hs)) as [h|] eqn:Hl;
      [| reflexivity].
    destruct (Hsound h eq_refl) as [Hin Hk]. destruct (Hnone h Hin Hk).
Qed.

Lemma filter_unique_key (hs : list ApiRoute) h :
  NoDup (map handlerKey hs) ->
  h ∈ hs ->
  filter (fun h0 => handlerKey h0 = handlerKey h) hs = [h].
Proof.
  induction hs as [|x hs IH]; intros Hnd Hin; [inversion Hin |].
  cbn [map] in Hnd. apply NoDup_cons in Hnd as [Hx Hnd].
  rewrite filter_cons. apply elem_of_cons in Hin as [-> | Hin].
  - rewrite decide_True by reflexivity. f_equal.
    destruct (filter (fun h0 => handlerKey h0 = handlerKey x) hs) as [|y l] eqn:Hf;
      [reflexivity |].
    assert (Hy : y ∈ filter (fun h0 => handlerKey h0 = handlerKey x) hs)
      by (rewrite Hf; left).
    apply list_elem_of_filter in Hy as [Hk Hy]. exfalso. apply Hx.
    rewrite <- Hk. apply list_elem_of_fmap. exists y. auto.
  - rewrite decide_False; [apply IH; assumption |].
    intros Hk. apply Hx. rewrite Hk. apply list_elem_of_fmap. exists h. auto.
Qed.

(** When no two declarations share a path and method, looking a registered
    handler up by its own key returns that handler. *)
Theorem handlerMap_round_trip rd api h :
  constructor rd = Some api ->
  NoDup (map (fun r => (path r, method r)) rd) ->
  h ∈ handlers api ->
  handlerMap api !! handlerKey h = Some h.
Proof.
  intros Hc Hnd Hin.
  assert (Hbase : map base (handlers api) = rd).
  { unfold constructor in Hc.
    destruct (mapM compileRoute rd) as [hs|] eqn:Hm; [| discriminate].
    injection Hc as <-. cbn [handlers]. apply mapM_Some_1 in Hm.
    clear Hnd Hin.
    induction Hm as [|r h0 rd hs Hrh _ IH]; [reflexivity |].
    cbn [map]. rewrite IH.
    apply compileRoute_Some in Hrh as [-> _]. reflexivity. }
  assert (Hkeys : NoDup (map handlerKey (handlers api))).
  { rewrite <- Hbase in Hnd. clear -Hnd.
    induction (handlers api) as [|x hs IH]; [constructor |].
    cbn [map] in *. apply NoDup_cons in Hnd as [Hx Hnd].
    apply NoDup_cons. split; [| apply IH; exact Hnd].
    intros Hk. apply Hx. apply list_elem_of_fmap in Hk as (y & Hk & Hy).
    apply handlerKey_pair_inj in Hk as [Hp Hm].
    apply list_elem_of_fmap. exists (base y). split.
    - rewrite <- Hp, <- Hm. reflexivity.
    - apply list_elem_of_fmap. exists y. auto. }
  unfold constructor in Hc.
  destruct (mapM compileRoute rd) as [hs|]; [| discriminate].
  injection Hc as <-. cbn [handlers handlerMap] in *.
  rewrite newMap_lookup, (filter_unique_key _ _ Hkeys Hin). reflexivity.
Qed.

(** ** Further properties of start and stop *)

Lemma start_state api :
  running (start api) = true
  /\ runningServer (start api) = Some (length (servers api))
  /\ servers (start api) = servers api ++ [Listening SERVER_PORT]
  /\ handlers (start api) = handlers api
  /\ handlerMap (start api) = handlerMap api.
Proof. unfold start. destruct (running api); cbn; auto. Qed.

Lemma stop_not_running api : running api = false -> stop api = Some api.
Proof. intros H. unfold stop. rewrite H. reflexivity. Qed.

(** [stop] is idempotent: once a [stop] has resolved the server is not
    running, and a further [stop] resolves at once and changes nothing. *)
Theorem stop_idempotent api stopped :
  stop api = Some stopped ->
  running stopped = false /\ stop stopped = Some stopped.
Proof.
  unfold stop at 1. destruct (running api) eqn:Hr.
  - destruct (runningServer api); [| discriminate].
    intros H. injection H as <-. split; reflexivity.
  - intros H. injection H as <-. split; [exact Hr | apply stop_not_running, Hr].
Qed.

(** [stop] after [start] always resolves; it closes exactly the server that
    this [start] created and leaves the layer stack and the registry alone. *)
Theorem stop_closes_started_server api :
  exists stopped,
    stop (start api) = Some stopped
    /\ running stopped = false
    /\ servers stopped = servers api ++ [Closed]
    /\ httpServer stopped = httpServer (start api)
    /\ handlers stopped = handlers api.
Proof.
  destruct (start_state api) as (Hr & Hrs & Hs & Hh & _).
  unfold stop. rewrite Hr, Hrs. eexists. split; [reflexivity |].
  cbn [running servers httpServer handlers]. repeat split; [| exact Hh].
  rewrite Hs, insert_app_r_alt by lia. rewrite Nat.sub_diag. reflexivity.
Qed.

Lemma runOps_stops_idle n : forall api,
  running api = false -> runOps (replicate n OpStop) api = Some api.
Proof.
  induction n as [|n IH]; intros api Hr; [reflexivity |].
  cbn [replicate runOps]. rewrite (stop_not_running _ Hr). apply IH, Hr.
Qed.

(** After two [start]s in a row the server created by the first one can no
    longer be closed: whatever number of [stop]s follows, it is still
    listening. *)
Theorem double_start_leaks_listener api n :
  exists final,
    runOps (replicate n OpStop) (start (start api)) = Some final
    /\ servers final !! length (servers api) = Some (Listening SERVER_PORT)
    /\ (0 < n -> running final = false
                 /\ servers final
                    = servers api ++ [Listening SERVER_PORT; Closed])%nat.
Proof.
  destruct (start_state api) as (_ & _ & Hs1 & _).
  destruct (start_state (start api)) as (Hr2 & Hrs2 & Hs2 & _).
  rewrite Hs1 in Hs2. rewrite <- app_assoc in Hs2. cbn [app] in Hs2.
  destruct n as [|n].
  - eexists. split; [reflexivity |]. split; [| lia].
    rewrite Hs2. rewrite lookup_app_r by lia. rewrite Nat.sub_diag. reflexivity.
  - cbn [replicate runOps]. unfold stop at 1. rewrite Hr2, Hrs2, Hs1.
    rewrite runOps_stops_idle by reflexivity.
    eexists. split; [reflexivity |]. cbn [servers running].
    assert (Hc : <[length (servers api ++ [Listening SERVER_PORT]) := Closed]>
                   (servers (start (start api)))
                 = servers api ++ [Listening SERVER_PORT; Closed]).
    { rewrite Hs2, length_app. cbn [length].
      rewrite insert_app_r_alt by lia.
      replace (length (servers api) + 1 - length (servers api))%nat with 1%nat
        by lia.
      reflexivity. }
    rewrite Hc. split; [| auto].
    rewrite lookup_app_r by lia. rewrite Nat.sub_diag. reflexivity.
Qed.

(** ** The assembled pipeline *)

Lemma loggingMiddleware_eq req :
  loggingMiddleware req
  = ([ELogInfo (requestLine req (loggedIp (req_ip req))); ENext], Done).
Proof. reflexivity. Qed.

Lemma pipeline_prefix api hs req :
  req_method req <> "OPTIONS" ->
  originPermitted (req_origin req) = true ->
  dispatch api (pipeline hs) None req
  = [ENext; ELogInfo (requestLine req (loggedIp (req_ip req))); ENext]
      ++ dispatch api (LGuard :: LJson :: map routeLayer hs ++ [LError]) None req.
Proof.
  intros Hm Ho. unfold pipeline.
  remember (LGuard :: LJson :: map routeLayer hs ++ [LError]) as rest.
  assert (Hc : corsMiddleware req = ([ENext], Done)).
  { unfold corsMiddleware, corsOrigin. rewrite Ho, (not_options _ Hm). reflexivity. }
  change ([LCors; LCorsOptions; LLogging; LGuard; LJson] ++ map routeLayer hs ++ [LError])
    with (LCors :: LCorsOptions :: LLogging
            :: (LGuard :: LJson :: map routeLayer hs ++ [LError])).
  rewrite <- Heqrest.
  cbn [dispatch layerApplies layerFn]. unfold layerHandle, asyncWrapper.
  rewrite Hc, loggingMiddleware_eq, (not_options _ Hm). reflexivity.
Qed.

(** A request that reaches the logging stage and matches no registered
    route: it is logged, answered 404 by the guard stage, and neither the
    body parser nor any route handler runs. *)
Theorem logged_unknown_route api req :
  req_method req <> "OPTIONS" ->
  Forall (fun h => accepts h req = false) (handlers api) ->
  writeHead (Some 404) = None ->
  dispatch api
    (LLogging :: LGuard :: LJson :: map routeLayer (handlers api) ++ [LError])
    None req
    = [ELogInfo (requestLine req (loggedIp (req_ip req))); ENext]
        ++ map EMatchTest (seq 0 (length (handlers api)))
        ++ [ERespond (Some 404) (ErrorBody (Some "Unknown route"))]
  /\ wireResponse
       (dispatch api
          (LLogging :: LGuard :: LJson :: map routeLayer (handlers api) ++ [LError])
          None req)
    = Some (Some 404, ErrorBody (Some "Unknown route")).
Proof.
  intros Hm Hnone Hw.
  remember (LJson :: map routeLayer (handlers api) ++ [LError]) as rest.
  assert (D : dispatch api (LLogging :: LGuard :: rest) None req
    = [ELogInfo (requestLine req (loggedIp (req_ip req))); ENext]
        ++ map EMatchTest (seq 0 (length (handlers api)))
        ++ [ERespond (Some 404) (ErrorBody (Some "Unknown route"))]).
  { cbn [dispatch layerApplies layerFn]. unfold layerHandle, asyncWrapper.
    rewrite loggingMiddleware_eq, (guardMiddleware_unknown _ _ Hm Hnone).
    unfold afterRespond. rewrite Hw. cbn [app signal].
    rewrite signal_match_tests. cbn [signal]. rewrite app_nil_r. reflexivity. }
  split; [exact D |].
  rewrite D. cbn [app wireResponse]. rewrite wireResponse_match_tests.
  cbn [wireResponse]. rewrite Hw. reflexivity.
Qed.

(** A body refused by the JSON parser is answered by the error handler, that
    is with status 500 and the parser's failure as text; no route handler
    runs. *)
Theorem body_failure_is_500 api req e rest :
  jsonParser req = Some e ->
  writeHead (Some 500) = None ->
  Forall (fun l => l <> LError) rest ->
  dispatch api (LJson :: rest ++ [LError]) None req = ENextErr e :: errorStage e
  /\ wireResponse (dispatch api (LJson :: rest ++ [LError]) None req)
    = Some (Some 500, ErrorBody (Some (toString e))).
Proof.
  intros Hj Hw Hrest.
  assert (D : dispatch api (LJson :: rest ++ [LError]) None req
              = ENextErr e :: errorStage e).
  { cbn [dispatch layerApplies layerFn]. unfold layerHandle, jsonMiddleware.
    rewrite Hj. cbn [app signal].
    rewrite (dispatch_pending_error _ _ _ _ _ Hw Hrest). reflexivity. }
  split; [exact D |]. rewrite D. cbn [wireResponse].
  exact (wireResponse_errorStage _ Hw).
Qed.

(** After [main], the server is running with one http server on
    [SERVER_PORT], and a GET request that matches [/] passes the CORS,
    logging, guard and body stages and is answered 200 [{ status: 'ok' }]. *)
Theorem main_serves_status t req :
  match_ "/" = Some t ->
  t (req_path req) = true ->
  express_match "/" (req_path req) = true ->
  req_method req = "GET" ->
  originPermitted (req_origin req) = true ->
  jsonParser req = None ->
  writeHead (Some 200) = None ->
  exists api,
    main = ([ELogInfo "Initializing"; ELogInfo "Launching API...";
             ELogInfo ("API running on 127.0.0.1:" +:+ pretty SERVER_PORT)],
            Some api)
    /\ running api = true
    /\ servers api = [Listening SERVER_PORT]
    /\ serve api req
       = [ENext; ELogInfo (requestLine req (loggedIp (req_ip req))); ENext;
          EMatchTest 0; ENext; ENext; ERespond (Some 200) (StatusBody "ok")]
    /\ wireResponse (serve api req) = Some (Some 200, StatusBody "ok").
Proof.
  intros Ht Hpath Hex Hmeth Ho Hj Hw.
  set (h := {| base := {| path := "/"; routeImplementation := getStatus;
                          method := GET;
                          description := "Check the API is online";
                          guards := None |};
               routeMatchTest := t |}).
  assert (Hm : mapM compileRoute routeData = Some [h]).
  { apply mapM_Some_2. unfold routeData. repeat constructor.
    unfold compileRoute. cbn [path]. rewrite Ht. reflexivity. }
  unfold main, constructor. rewrite Hm.
  eexists. split; [reflexivity |].
  split; [reflexivity |]. split; [reflexivity |].
  assert (Hopt : req_method req <> "OPTIONS") by (rewrite Hmeth; discriminate).
  assert (Hg : guardMiddleware [h] req = ([EMatchTest 0; ENext], Done)).
  { unfold guardMiddleware, guardMiddleware_body.
    rewrite (not_options _ Hopt). cbn [findRoute routeMatchTest h].
    rewrite Hpath, Hmeth. reflexivity. }
  assert (Hs : getStatus req = ([ERespond (Some 200) (StatusBody "ok")], Done)).
  { unfold getStatus, respond. cbn. rewrite Hw. reflexivity. }
  assert (D : forall api', handlers api' = [h] ->
    dispatch api' (pipeline [h]) None req
    = [ENext; ELogInfo (requestLine req (loggedIp (req_ip req))); ENext;
       EMatchTest 0; ENext; ENext; ERespond (Some 200) (StatusBody "ok")]).
  { intros api' Hh. rewrite (pipeline_prefix _ _ _ Hopt Ho).
    cbn [map routeLayer app dispatch layerApplies layerFn].
    unfold layerHandle, asyncWrapper, jsonMiddleware.
    rewrite Hh, Hg, Hj. cbn [app signal method path base h routeImplementation].
    rewrite Hmeth, Hex, Hs. reflexivity. }
  unfold serve.
  match goal with
  | |- context [dispatch ?a ?s None req] =>
      change s with (pipeline [h]); rewrite (D a eq_refl)
  end.
  split; [reflexivity |]. cbn [wireResponse]. rewrite Hw. reflexivity.
Qed.

(** Layers added after a stack are reached only by a request that falls off
    the end of that stack. *)
Lemma dispatch_app_halt a b req s2 : forall s1 err,
  handlers a = handlers b ->
  (forall e, last (dispatch a s1 err req) <> Some (EFinal e)) ->
  dispatch b (s1 ++ s2) err req = dispatch a s1 err req.
Proof.
  induction s1 as [|l s1 IH]; intros err Hh H.
  - exfalso. apply (H err). reflexivity.
  - assert (Hfn : layerFn b l = layerFn a l)
      by (destruct l; cbn; rewrite ?Hh; reflexivity).
    assert (Hcont : forall tr,
      (forall e,
         last (tr ++ match signal tr with
                     | SNext => dispatch a s1 None req
                     | SErr e0 => dispatch a s1 (Some e0) req
                     | SHalt => []
                     end) <> Some (EFinal e)) ->
      tr ++ match signal tr with
            | SNext => dispatch b (s1 ++ s2) None req
            | SErr e0 => dispatch b (s1 ++ s2) (Some e0) req
            | SHalt => []
            end
      = tr ++ match signal tr with
              | SNext => dispatch a s1 None req
              | SErr e0 => dispatch a s1 (Some e0) req
              | SHalt => []
              end).
    { intros tr Htr. f_equal. destruct (signal tr); [| | reflexivity].
      - apply IH; [exact Hh |]. intros e He. apply (Htr e).
        rewrite last_app, He. reflexivity.
      - apply IH; [exact Hh |]. intros e' He. apply (Htr e').
        rewrite last_app, He. reflexivity. }
    cbn [app dispatch] in *. rewrite Hfn. destruct err as [e|].
    + destruct l; try (apply IH; assumption). apply Hcont. exact H.
    + destruct (layerApplies l req); [| apply IH; assumption].
      apply Hcont. exact H.
Qed.

(** After start, stop, start the pipeline is installed twice, yet every
    request that some layer of the first copy ends (its trace does not end by
    falling off the stack) gets exactly the calls it got before the
    restart. *)
Theorem restart_same_trace api stopped req :
  running api = false ->
  httpServer api = [] ->
  stop (start api) = Some stopped ->
  (forall e, last (serve (start api) req) <> Some (EFinal e)) ->
  serve (start stopped) req = serve (start api) req.
Proof.
  intros Hr Hs Hstop Hlast.
  assert (H1 : httpServer (start api) = pipeline (handlers api)).
  { unfold start. rewrite Hr. cbn. rewrite Hs. reflexivity. }
  assert (H2 : running stopped = false
               /\ httpServer stopped = pipeline (handlers api)
               /\ handlers stopped = handlers api).
  { unfold stop in Hstop.
    destruct (start_state api) as (Hrun & Hrs & _ & Hh & _).
    rewrite Hrun, Hrs in Hstop. injection Hstop as <-.
    cbn [running httpServer handlers]. rewrite Hr. cbn. rewrite Hs. auto. }
  destruct H2 as (Hr' & Hs' & Hh').
  assert (H3 : httpServer (start stopped)
               = pipeline (handlers api) ++ pipeline (handlers api)).
  { unfold start. rewrite Hr'. cbn. rewrite Hs', Hh'. reflexivity. }
  unfold serve in *. rewrite H3, H1 in *.
  apply dispatch_app_halt; [| exact Hlast].
  destruct (start_state api) as (_ & _ & _ & Hh & _).
  destruct (start_state stopped) as (_ & _ & _ & Hh2 & _).
  rewrite Hh, Hh2, Hh'. reflexivity.
Qed.

End Server.

(** * Examples on concrete routes and requests *)

(** GET /secret with guards [allow; deny 403 "nope"; broken]: the second guard
    answers and the third is never called. *)
Lemma guard_chain_short_circuit_witness :
  guardMiddleware nodeWriteHead
    [secretRoute [allowGuard; denyGuard; brokenGuard]]
    (request "GET" "/secret" None)
  = ([EMatchTest 0; EGuard 0; EGuard 1;
      ERespond (Some 403) (ErrorBody (Some "nope"))], Done)
  /\ (nodeWriteHead (Some 403) = None ->
      wireResponse nodeWriteHead
        (fst (guardMiddleware nodeWriteHead
                [secretRoute [allowGuard; denyGuard; brokenGuard]]
                (request "GET" "/secret" None)))
      = Some (Some 403, ErrorBody (Some "nope"))).
Proof.
  apply (guard_chain_short_circuit nodeWriteHead
           [secretRoute [allowGuard; denyGuard; brokenGuard]]
           (request "GET" "/secret" None)
           [] (secretRoute [allowGuard; denyGuard; brokenGuard]) []
           [allowGuard; denyGuard; brokenGuard] 1 denyGuard
           {| accessPermitted := false; error := Some "nope"; statusCode := Some 403 |}).
  - discriminate.
  - reflexivity.
  - constructor.
  - reflexivity.
  - discriminate.
  - reflexivity.
  - reflexivity.
  - reflexivity.
  - reflexivity.
  - intros j gj Hj Hgj. destruct j as [|j]; [| lia].
    injection Hgj as <-. eexists. split; reflexivity.
Defined.

(** GET / resolved to a route with the empty pattern and a guard that denies
    with 403: no guard is evaluated and the answer is 404. *)
Lemma guard_chain_empty_pattern_counterexample :
  ~ (forall hs req pre r post gs k g res,
        req_method req <> "OPTIONS" ->
        hs = pre ++ r :: post ->
        Forall (fun h => accepts h req = false) pre ->
        accepts r req = true ->
        guards r = Some gs ->
        gs !! k = Some g ->
        g req (path r) (req_method req) = inr res ->
        accessPermitted res = false ->
        (forall j gj, (j < k)%nat -> gs !! j = Some gj ->
           exists rj, gj req (path r) (req_method req) = inr rj
                      /\ accessPermitted rj = true) ->
        wireResponse nodeWriteHead (fst (guardMiddleware nodeWriteHead hs req))
        = Some (statusCode res, ErrorBody (error res))).
Proof.
  intros H.
  specialize (H [emptyPatternRoute [denyGuard]] (request "GET" "/" None)
                [] (emptyPatternRoute [denyGuard]) [] [denyGuard] 0%nat denyGuard
                {| accessPermitted := false; error := Some "nope";
                   statusCode := Some 403 |}).
  assert (Hc : wireResponse nodeWriteHead
                 (fst (guardMiddleware nodeWriteHead
                         [emptyPatternRoute [denyGuard]] (request "GET" "/" None)))
               = Some (Some 404, ErrorBody (Some "Unknown route")))
    by reflexivity.
  rewrite Hc in H.
  assert (Hf : Some (Some 404, ErrorBody (Some "Unknown route"))
               = Some (Some 403, ErrorBody (Some "nope"))).
  { apply H; try reflexivity.
    - discriminate.
    - constructor.
    - intros j gj Hj. lia. }
  discriminate Hf.
Qed.

(** GET /missing is not declared: 404 Unknown route. *)
Lemma route_resolution_first_match_witness :
  guardMiddleware nodeWriteHead [secretRoute []] (request "GET" "/missing" None)
  = ([EMatchTest 0; ERespond (Some 404) (ErrorBody (Some "Unknown route"))], Done).
Proof.
  assert (Hm : req_method (request "GET" "/missing" None) <> "OPTIONS")
    by discriminate.
  assert (Hnone : Forall (fun h => accepts h (request "GET" "/missing" None) = false)
                         [secretRoute []])
    by (repeat constructor).
  exact (proj1 (proj2 (proj2 (route_resolution_first_match nodeWriteHead String.eqb
                                (fun _ => None) [] [secretRoute []]
                                (request "GET" "/missing" None) Hm)) Hnone)).
Defined.

(** OPTIONS /secret passes although the route's guard always denies. *)
Lemma options_bypass_guards_witness :
  guardMiddleware nodeWriteHead [secretRoute [denyGuard]]
    (request "OPTIONS" "/secret" None)
  = ([ENext], Done).
Proof.
  exact (proj1 (options_bypass_guards nodeWriteHead String.eqb (fun _ => None) []
                  [secretRoute [denyGuard]] (request "OPTIONS" "/secret" None)
                  eq_refl)).
Defined.

(** A handler that throws and one whose promise rejects, same failure. *)
Lemma handler_failure_single_path_witness :
  dispatch nodeWriteHead String.eqb (fun _ => None) [] (freshApi [])
    [LRoute GET "/" (throwingHandler (Error "boom")); LError] None
    (request "GET" "/" None)
  = [ENextErr (Error "boom"); ELogFailure (Error "boom") None;
     ERespond (Some 500) (ErrorBody (Some "Error: boom"))]
  /\ dispatch nodeWriteHead String.eqb (fun _ => None) [] (freshApi [])
    [LRoute GET "/" (rejectingHandler (Error "boom")); LError] None
    (request "GET" "/" None)
  = [ENextErr (Error "boom"); ELogFailure (Error "boom") None;
     ERespond (Some 500) (ErrorBody (Some "Error: boom"))]
  /\ wireResponse nodeWriteHead
       (dispatch nodeWriteHead String.eqb (fun _ => None) [] (freshApi [])
          [LRoute GET "/" (throwingHandler (Error "boom")); LError] None
          (request "GET" "/" None))
     = Some (Some 500, ErrorBody (Some "Error: boom"))
  /\ wireResponse nodeWriteHead
       (dispatch nodeWriteHead String.eqb (fun _ => None) [] (freshApi [])
          [LRoute GET "/" (rejectingHandler (Error "boom")); LError] None
          (request "GET" "/" None))
     = Some (Some 500, ErrorBody (Some "Error: boom")).
Proof.
  apply (handler_failure_single_path nodeWriteHead String.eqb (fun _ => None) []
           (freshApi []) GET "/" (throwingHandler (Error "boom"))
           (rejectingHandler (Error "boom")) [] (request "GET" "/" None)
           [] [] (Error "boom")).
  - reflexivity.
  - reflexivity.
  - constructor.
  - reflexivity.
  - reflexivity.
  - reflexivity.
  - reflexivity.
  - reflexivity.
  - reflexivity.
Defined.

(** GET /secret with a guard that denies without a status code. *)
Lemma guard_missing_status_is_500_witness :
  wireResponse nodeWriteHead
    (dispatch nodeWriteHead String.eqb (fun _ => None) []
       (freshApi [secretRoute [bareDenyGuard]]) [LGuard; LJson; LError] None
       (request "GET" "/secret" None))
  = Some (Some 500, ErrorBody (Some (toString (invalidStatus "undefined")))).
Proof.
  eapply proj2.
  apply (guard_missing_status_is_500 nodeWriteHead String.eqb (fun _ => None) []
           (freshApi [secretRoute [bareDenyGuard]]) (request "GET" "/secret" None)
           [] (secretRoute [bareDenyGuard]) [] [bareDenyGuard] 0 bareDenyGuard
           {| accessPermitted := false; error := Some "nope"; statusCode := None |}
           (invalidStatus "undefined") [LJson]).
  - reflexivity.
  - reflexivity.
  - discriminate.
  - reflexivity.
  - constructor.
  - reflexivity.
  - discriminate.
  - reflexivity.
  - reflexivity.
  - reflexivity.
  - reflexivity.
  - reflexivity.
  - intros j gj Hj. lia.
  - repeat constructor. discriminate.
Defined.



(** The status route declared twice: the constructor does not fail. *)
Lemma duplicate_routes_counterexample :
  ~ (forall rd i j ri rj,
        (i < j)%nat ->
        rd !! i = Some ri ->
        rd !! j = Some rj ->
        path ri = path rj ->
        method ri = method rj ->
        constructor staticMatch rd = None).
Proof.
  intros H.
  specialize (H [statusDecl; statusDecl] 0%nat 1%nat statusDecl statusDecl
                ltac:(lia) eq_refl eq_refl eq_refl eq_refl).
  discriminate H.
Qed.

Lemma constructor_keeps_colliding_routes_witness :
  exists api hi hj,
    constructor staticMatch [statusDecl; statusDecl] = Some api
    /\ map base (handlers api) = [statusDecl; statusDecl]
    /\ handlers api !! 0%nat = Some hi /\ base hi = statusDecl
    /\ handlers api !! 1%nat = Some hj /\ base hj = statusDecl
    /\ handlerKey hi = handlerKey hj
    /\ (forall k,
          handlerMap api !! k
          = last (filter (fun h => handlerKey h = k) (handlers api)))
    /\ running (start 8080 api) = true.
Proof.
  apply (constructor_keeps_colliding_routes staticMatch 8080
           [statusDecl; statusDecl] 0 1 statusDecl statusDecl).
  - lia.
  - reflexivity.
  - reflexivity.
  - reflexivity.
  - reflexivity.
  - repeat constructor; eexists; reflexivity.
Defined.

(** start, start on a fresh server: one pipeline, two calls of [listen]. *)
Example start_twice_example :
  let api := start 8080 (start 8080 (freshApi [])) in
  httpServer api = pipeline []
  /\ servers api = [Listening 8080; Listening 8080]
  /\ runningServer api = Some 1%nat.
Proof. repeat split. Qed.

(** start, stop, start on a fresh server. *)
Lemma restart_runs_init_again_witness :
  exists stopped,
    stop (start 8080 (freshApi [])) = Some stopped
    /\ running stopped = false
    /\ httpServer (start 8080 (freshApi [])) = [] ++ pipeline []
    /\ httpServer (start 8080 stopped) = ([] ++ pipeline []) ++ pipeline [].
Proof.
  apply (restart_runs_init_again 8080 (freshApi [])). reflexivity.
Defined.

(** A client at [::ffff:203.0.113.5] is logged as [203.0.113.5]. *)
Example logging_mapped_address_example :
  loggingMiddleware (request "GET" "/" None)
  = ([ELogInfo "Recieved request for GET / from 203.0.113.5"; ENext], Done).
Proof. reflexivity. Qed.

(** GET / on the server as shipped answers 200 [{ status: 'ok' }]. *)
Example get_status_example :
  match constructor staticMatch (routeData nodeWriteHead) with
  | Some api =>
      wireResponse nodeWriteHead
        (serve nodeWriteHead String.eqb (fun _ => None) []
           (start 8080 api) (request "GET" "/" None))
  | None => None
  end
  = Some (Some 200, StatusBody "ok").
Proof. reflexivity. Qed.

(** * Examples for the further properties *)


(** GET /secret with guards [allow; broken; deny]: the second guard rejects. *)
Lemma guard_rejection_is_500_witness :
  wireResponse nodeWriteHead
    (dispatch nodeWriteHead String.eqb (fun _ => None) []
       (freshApi [secretRoute [allowGuard; brokenGuard; denyGuard]])
       [LGuard; LJson; LError] None (request "GET" "/secret" None))
  = Some (Some 500, ErrorBody (Some "Error: guard failed")).
Proof.
  eapply proj2. eapply proj2.
  apply (guard_rejection_is_500 nodeWriteHead String.eqb (fun _ => None) []
           (freshApi [secretRoute [allowGuard; brokenGuard; denyGuard]])
           (request "GET" "/secret" None)
           [] (secretRoute [allowGuard; brokenGuard; denyGuard]) []
           [allowGuard; brokenGuard; denyGuard] 1 brokenGuard
           (Error "guard failed") [LJson]).
  - reflexivity.
  - discriminate.
  - reflexivity.
  - constructor.
  - reflexivity.
  - discriminate.
  - reflexivity.
  - reflexivity.
  - reflexivity.
  - intros j gj Hj Hgj. destruct j as [|j]; [| lia].
    injection Hgj as <-. eexists. split; reflexivity.
  - constructor; [discriminate | constructor].
Defined.

(** GET / resolved to a route declared with the empty pattern. *)
Lemma empty_pattern_route_is_unknown_witness :
  guardMiddleware nodeWriteHead [emptyPatternRoute [denyGuard]]
    (request "GET" "/" None)
  = ([EMatchTest 0; ERespond (Some 404) (ErrorBody (Some "Unknown route"))], Done).
Proof.
  apply (empty_pattern_route_is_unknown nodeWriteHead
           [emptyPatternRoute [denyGuard]] (request "GET" "/" None)
           [] (emptyPatternRoute [denyGuard]) []).
  - discriminate.
  - reflexivity.
  - constructor.
  - reflexivity.
  - reflexivity.
Defined.

(** HEAD /secret on a server that declares GET /secret. *)
Lemma unsupported_method_is_unknown_witness :
  guardMiddleware nodeWriteHead [secretRoute []] (request "HEAD" "/secret" None)
  = ([EMatchTest 0; ERespond (Some 404) (ErrorBody (Some "Unknown route"))], Done).
Proof.
  apply (unsupported_method_is_unknown nodeWriteHead [secretRoute []]
           (request "HEAD" "/secret" None)).
  - discriminate.
  - intros m. destruct m; discriminate.
Defined.

Lemma constructor_registry_shape_witness :
  exists api,
    constructor staticMatch [statusDecl] = Some api
    /\ httpServer api = [] /\ running api = false /\ runningServer api = None
    /\ servers api = []
    /\ Forall2 (fun r h => base h = r
                           /\ staticMatch (path r) = Some (routeMatchTest h))
               [statusDecl] (handlers api).
Proof.
  eexists. split; [reflexivity |].
  apply (constructor_registry_shape staticMatch [statusDecl]). reflexivity.
Defined.

Lemma handlerKey_inj_witness :
  path (secretRoute []) = path (secretRoute [denyGuard])
  /\ method (secretRoute []) = method (secretRoute [denyGuard]).
Proof.
  apply (handlerKey_inj (secretRoute []) (secretRoute [denyGuard])). reflexivity.
Defined.

Lemma handlerMap_keys_witness :
  exists api,
    constructor staticMatch [statusDecl] = Some api
    /\ (is_Some (handlerMap api !! "/-GET")
        <-> exists h, h ∈ handlers api /\ handlerKey h = "/-GET")
    /\ (forall h, handlerMap api !! "/-GET" = Some h ->
          h ∈ handlers api /\ handlerKey h = "/-GET")
    /\ ((forall h, h ∈ handlers api -> handlerKey h <> "/-GET") ->
          handlerMap api !! "/-GET" = None).
Proof.
  eexists. split; [reflexivity |].
  apply (handlerMap_keys staticMatch [statusDecl] _ "/-GET"). reflexivity.
Defined.

Lemma handlerMap_round_trip_witness :
  exists api h,
    constructor staticMatch [statusDecl] = Some api
    /\ handlers api = [h]
    /\ handlerMap api !! handlerKey h = Some h.
Proof.
  eexists _, _. split; [reflexivity |]. split; [reflexivity |].
  apply (handlerMap_round_trip staticMatch [statusDecl]).
  - reflexivity.
  - apply NoDup_singleton.
  - apply list_elem_of_here.
Defined.

Lemma stop_idempotent_witness :
  exists stopped,
    stop (start 8080 (freshApi [])) = Some stopped
    /\ running stopped = false
    /\ stop stopped = Some stopped.
Proof.
  eexists. split; [reflexivity |].
  apply (stop_idempotent (start 8080 (freshApi []))). reflexivity.
Defined.

Lemma logged_unknown_route_witness :
  wireResponse nodeWriteHead
    (dispatch nodeWriteHead String.eqb (fun _ => None) []
       (freshApi [secretRoute [denyGuard]])
       (LLogging :: LGuard :: LJson
          :: map routeLayer [secretRoute [denyGuard]] ++ [LError])
       None (request "GET" "/missing" None))
  = Some (Some 404, ErrorBody (Some "Unknown route")).
Proof.
  eapply proj2.
  apply (logged_unknown_route nodeWriteHead String.eqb (fun _ => None) []
           (freshApi [secretRoute [denyGuard]]) (request "GET" "/missing" None)).
  - discriminate.
  - constructor; [reflexivity | constructor].
  - reflexivity.
Defined.

Lemma body_failure_is_500_witness :
  dispatch nodeWriteHead String.eqb (fun _ => Some (Error "bad json")) []
    (freshApi []) [LJson; LRoute POST "/" okHandler; LError] None
    (request "POST" "/" None)
  = [ENextErr (Error "bad json"); ELogFailure (Error "bad json") None;
     ERespond (Some 500) (ErrorBody (Some "Error: bad json"))].
Proof.
  eapply proj1.
  apply (body_failure_is_500 nodeWriteHead String.eqb
           (fun _ => Some (Error "bad json")) [] (freshApi [])
           (request "POST" "/" None) (Error "bad json")
           [LRoute POST "/" okHandler]).
  - reflexivity.
  - reflexivity.
  - constructor; [discriminate | constructor].
Defined.

Lemma main_serves_status_witness :
  exists api,
    main nodeWriteHead staticMatch 8080
    = ([ELogInfo "Initializing"; ELogInfo "Launching API...";
        ELogInfo ("API running on 127.0.0.1:" +:+ pretty 8080)],
       Some api)
    /\ running api = true
    /\ servers api = [Listening 8080]
    /\ serve nodeWriteHead String.eqb (fun _ => None) [] api
         (request "GET" "/" None)
       = [ENext; ELogInfo "Recieved request for GET / from 203.0.113.5"; ENext;
          EMatchTest 0; ENext; ENext; ERespond (Some 200) (StatusBody "ok")]
    /\ wireResponse nodeWriteHead
         (serve nodeWriteHead String.eqb (fun _ => None) [] api
            (request "GET" "/" None))
       = Some (Some 200, StatusBody "ok").
Proof.
  apply (main_serves_status nodeWriteHead staticMatch String.eqb (fun _ => None)
           [] 8080 (String.eqb "/") (request "GET" "/" None)); reflexivity.
Defined.

Lemma restart_same_trace_witness :
  exists stopped,
    stop (start 8080 (freshApi [secretRoute [denyGuard]])) = Some stopped
    /\ serve nodeWriteHead String.eqb (fun _ => None) [] (start 8080 stopped)
         (request "GET" "/secret" None)
       = serve nodeWriteHead String.eqb (fun _ => None) []
           (start 8080 (freshApi [secretRoute [denyGuard]]))
           (request "GET" "/secret" None).
Proof.
  eexists. split; [reflexivity |].
  apply (restart_same_trace nodeWriteHead String.eqb (fun _ => None) [] 8080
           (freshApi [secretRoute [denyGuard]])).
  - reflexivity.
  - reflexivity.
  - reflexivity.
  - intros e. vm_compute. discriminate.
Defined.
